(** * hands_off: a shallow embedding of [src/hands_off/main2.py]

    The program is a Chainlit chat front-end: a module-level check of the
    API key, an [on_chat_start] handler ([start]) that builds three agents
    and seeds the user session, and an [on_message] handler ([main]) that
    forwards a message to the external agent runner and records the turn
    in a chat history list.

    The embedding keeps what the Python code relies on:
    - the user session is a dictionary from string keys to values;
    - the chat history is a mutable list object, so the session holds a
      reference to it and [history.append] acts on the shared object;
    - UI messages are objects whose content is assigned and then pushed
      with [send] / [update];
    - every effect visible outside the handler (UI sends and updates,
      printed lines, list appends, session writes, runner calls) is also
      recorded, in program order, in a trace. *)

From Stdlib Require Import Ascii String.
From stdpp Require Import base option list gmap strings.

#[local] Set Warnings "-register-all".
Local Open Scope string_scope.
Local Open Scope list_scope.

(** ** Values of the program *)

Inductive Role := user | assistant.

(** A history entry is the dict [{"role": r, "content": c}]. *)
Record ChatHistoryEntry := { role : Role; content : string }.

Record AsyncOpenAI := { api_key : string; base_url : string }.

Record OpenAIChatCompletionsModel :=
  { model_id : string; openai_client : AsyncOpenAI }.

Record RunConfig :=
  { rc_model : OpenAIChatCompletionsModel;
    model_provider : AsyncOpenAI;
    tracing_disabled : bool }.

(** [RunContextWrapper[None]]: the wrapped context is [None]. *)
Record RunContextWrapper := { context : unit }.

(** The two lambdas of [start] have the same body,
    [lambda ctx: on_handoff(<agent>, ctx)], and differ only in the agent
    variable they close over; a closure is that captured agent. *)
Inductive Closure (A : Type) := LambdaOnHandoff (captured : A).
Arguments LambdaOnHandoff {A} captured.

(** The object built by [handoff(agent, on_handoff=f)]. *)
Record Handoff (A : Type) := { handoff_agent : A; handoff_on_handoff : Closure A }.
Arguments handoff_agent {A} _.
Arguments handoff_on_handoff {A} _.

Inductive Agent :=
  mkAgent (name : string) (instructions : string)
          (model : OpenAIChatCompletionsModel) (handoffs : list (Handoff Agent)).

Definition name (a : Agent) : string := let 'mkAgent n _ _ _ := a in n.
Definition instructions (a : Agent) : string := let 'mkAgent _ i _ _ := a in i.
Definition model (a : Agent) : OpenAIChatCompletionsModel := let 'mkAgent _ _ m _ := a in m.
Definition handoffs (a : Agent) : list (Handoff Agent) := let 'mkAgent _ _ _ h := a in h.

(** [handoff(agent, on_handoff=f)] *)
Definition handoff (agent : Agent) (f : Closure Agent) : Handoff Agent :=
  {| handoff_agent := agent; handoff_on_handoff := f |}.

(** What the session dictionary can hold: [None], an agent, a run
    configuration, or a reference to a list object on the heap. *)
Inductive Value :=
| VNone
| VAgent (a : Agent)
| VConfig (c : RunConfig)
| VList (l : nat).

Inductive Exn :=
| ValueError (msg : string)
| AttributeError (msg : string)
| RunnerError (msg : string).

(** [str(e)] *)
Definition str (e : Exn) : string :=
  match e with ValueError m | AttributeError m | RunnerError m => m end.

(** ** The world the handlers act on *)

(** A [cl.Message] object: [author = None] is the framework's default. *)
Record Message := { msg_content : string; msg_author : option string }.

(** A printed line; [LineRepr p h] is [print(f"{p}{h}")] for a list [h],
    whose text is Python's [repr] of the list after the prefix [p]. *)
Inductive LogLine :=
| Line (s : string)
| LineRepr (prefix : string) (h : list ChatHistoryEntry).

Inductive Event :=
| EvSend (id : nat) (author : option string) (text : string)
| EvUpdate (id : nat) (text : string)
| EvPrint (line : LogLine)
| EvAppend (l : nat) (e : ChatHistoryEntry)
| EvSessionSet (key : string) (v : Value)
| EvRunnerCall (agent : Value) (input : list ChatHistoryEntry) (config : Value).

Record World :=
  { session : gmap string Value;
    heap : gmap nat (list ChatHistoryEntry);
    messages : gmap nat Message;
    trace : list Event }.

Definition with_session (f : gmap string Value → gmap string Value) (w : World) : World :=
  {| session := f (session w); heap := heap w; messages := messages w; trace := trace w |}.
Definition with_heap (f : gmap nat (list ChatHistoryEntry) → gmap nat (list ChatHistoryEntry))
    (w : World) : World :=
  {| session := session w; heap := f (heap w); messages := messages w; trace := trace w |}.
Definition with_messages (f : gmap nat Message → gmap nat Message) (w : World) : World :=
  {| session := session w; heap := heap w; messages := f (messages w); trace := trace w |}.
Definition record (ev : Event) (w : World) : World :=
  {| session := session w; heap := heap w; messages := messages w; trace := trace w ++ [ev] |}.

(** ** A state-and-exception monad for the handlers *)

Inductive Result (A : Type) :=
| Return (a : A)
| Raise (e : Exn).
Arguments Return {A} a.
Arguments Raise {A} e.

Definition M (A : Type) : Type := World → World * Result A.

Definition ret {A} (a : A) : M A := λ w, (w, Return a).
Definition raise {A} (e : Exn) : M A := λ w, (w, Raise e).
Definition bind {A B} (m : M A) (k : A → M B) : M B :=
  λ w, match m w with
       | (w', Return a) => k a w'
       | (w', Raise e) => (w', Raise e)
       end.

(** [try: body except Exception as e: handler(e)] *)
Definition try_except {A} (body : M A) (handler : Exn → M A) : M A :=
  λ w, match body w with
       | (w', Return a) => (w', Return a)
       | (w', Raise e) => handler e w'
       end.

Declare Scope py_scope.
Delimit Scope py_scope with py.
Notation "x <- m ;; k" := (bind m (λ x, k))
  (at level 100, m at next level, right associativity) : py_scope.
Notation "m ;; k" := (bind m (λ _, k))
  (at level 100, right associativity) : py_scope.
Local Open Scope py_scope.

Definition emit (ev : Event) : M unit := λ w, (record ev w, Return tt).

Fixpoint for_each {A} (f : A → M unit) (xs : list A) : M unit :=
  match xs with
  | [] => ret tt
  | x :: rest => f x ;; for_each f rest
  end.

(** ** Primitives of the Python runtime and of Chainlit *)

Definition print (line : LogLine) : M unit := emit (EvPrint line).

(** [cl.user_session.get(key)]: the stored object itself, [None] when
    the key is absent. *)
Definition user_session_get (key : string) : M Value :=
  λ w, (w, Return (default VNone (session w !! key))).

(** [cl.user_session.set(key, value)] *)
Definition user_session_set (key : string) (v : Value) : M unit :=
  λ w, (record (EvSessionSet key v) (with_session <[key := v]> w), Return tt).

(** The items of the list object behind a value. *)
Definition items_of (w : World) (v : Value) : list ChatHistoryEntry :=
  match v with
  | VList l => default [] (heap w !! l)
  | _ => []
  end.

(** The list display [[]]: a new, empty list object. *)
Definition new_list : M Value :=
  λ w, let l := fresh (dom (heap w)) in
       (with_heap <[l := []]> w, Return (VList l)).

(** Python truth value: [None] and the empty list are false, agent and
    configuration objects are true. *)
Definition truthy (v : Value) : M bool :=
  λ w, (w, Return match v with
                  | VNone => false
                  | VList _ => match items_of w v with [] => false | _ :: _ => true end
                  | VAgent _ | VConfig _ => true
                  end).

(** [v or rhs]: [v] itself when it is true, otherwise the value of [rhs]. *)
Definition py_or (v : Value) (rhs : M Value) : M Value :=
  b <- truthy v ;; if b then ret v else rhs.

(** [v.append(e)]: in place on the list object; any other value has no
    [append] attribute. *)
Definition append (v : Value) (e : ChatHistoryEntry) : M unit :=
  match v with
  | VList l =>
      λ w, (record (EvAppend l e) (with_heap <[l := items_of w v ++ [e]]> w), Return tt)
  | _ => raise (AttributeError "object has no attribute 'append'")
  end.

(** [cl.Message(content=c, author=a)]: a new message object. *)
Definition Message_new (c : string) (a : option string) : M nat :=
  λ w, let id := fresh (dom (messages w)) in
       (with_messages <[id := {| msg_content := c; msg_author := a |}]> w, Return id).

(** [msg.content = c] *)
Definition Message_set_content (id : nat) (c : string) : M unit :=
  λ w, (with_messages
          (alter (λ m, {| msg_content := c; msg_author := msg_author m |}) id) w,
        Return tt).

(** [await msg.send()] *)
Definition Message_send (id : nat) : M unit :=
  λ w, match messages w !! id with
       | Some m => (record (EvSend id (msg_author m) (msg_content m)) w, Return tt)
       | None => (w, Return tt)
       end.

(** [await msg.update()] *)
Definition Message_update (id : nat) : M unit :=
  λ w, match messages w !! id with
       | Some m => (record (EvUpdate id (msg_content m)) w, Return tt)
       | None => (w, Return tt)
       end.

(** [s.lower()], on the ASCII letters (the agent names of this program
    are ASCII). *)
Definition lower_ascii (c : ascii) : ascii :=
  let n := nat_of_ascii c in
  if (65 <=? n)%nat && (n <=? 90)%nat then ascii_of_nat (n + 32) else c.

Fixpoint lower (s : string) : string :=
  match s with
  | EmptyString => EmptyString
  | String c rest => String (lower_ascii c) (lower rest)
  end.

(** The newline character of the [\n] escapes. *)
Definition nl : string := String "010"%char EmptyString.

(** ** The program *)

(** *** Module level: the API key *)

(** [os.getenv(k)] over the process environment (after [load_dotenv()]). *)
Definition getenv (environ : gmap string string) (k : string) : option string :=
  environ !! k.

(** [not gemini_api_key]: true for [None] and for the empty string. *)
Definition not_key (v : option string) : bool :=
  match v with
  | None => true
  | Some EmptyString => true
  | Some (String _ _) => false
  end.

Definition key_error : Exn :=
  ValueError "❌ GEMINI_API_KEY is not set. Please define it in your .env file.".

(** Lines 13-15: the module body either raises or binds [gemini_api_key]. *)
Definition module_body (environ : gmap string string) : Exn + string :=
  let gemini_api_key := getenv environ "GEMINI_API_KEY" in
  if not_key gemini_api_key then inl key_error
  else inr (default EmptyString gemini_api_key).

(** *** [start]: the objects it builds *)

Section Start.
Variable gemini_api_key : string.

Definition external_client : AsyncOpenAI :=
  {| api_key := gemini_api_key;
     base_url := "https://generativelanguage.googleapis.com/v1beta/openai/" |}.

Definition start_model : OpenAIChatCompletionsModel :=
  {| model_id := "gemini-2.5-flash"; openai_client := external_client |}.

Definition config : RunConfig :=
  {| rc_model := start_model; model_provider := external_client; tracing_disabled := true |}.

Definition billing_agent : Agent :=
  mkAgent "Billing Agent" "You are a billing agent." start_model [].

Definition refund_agent : Agent :=
  mkAgent "Refund Agent" "You are a refund agent." start_model [].

Definition triage_agent : Agent :=
  mkAgent "Triage Agent" "You are a triage agent." start_model
    [ handoff billing_agent (LambdaOnHandoff billing_agent);
      handoff refund_agent (LambdaOnHandoff refund_agent) ].
End Start.

(** *** The handoff callback *)

Definition handoff_notice (agent_name : string) : string :=
  "🔄 **Handing off to " +:+ agent_name +:+ "...**" +:+ nl +:+ nl +:+
  "I'm transferring your request to our " +:+ lower agent_name +:+ " " +:+
  "who will be able to better assist you.".

Definition on_handoff (agent : Agent) (ctx : RunContextWrapper) : M unit :=
  let agent_name := name agent in
  print (Line "--------------------------------") ;;
  print (Line ("Handing off to " +:+ agent_name +:+ "...")) ;;
  print (Line "--------------------------------") ;;
  msg <- Message_new (handoff_notice agent_name) (Some "System") ;;
  Message_send msg.

(** Calling a closure [lambda ctx: on_handoff(a, ctx)] and running the
    coroutine it returns. *)
Definition call (f : Closure Agent) (ctx : RunContextWrapper) : M unit :=
  let 'LambdaOnHandoff a := f in on_handoff a ctx.

(** *** [start] *)

Definition welcome : string :=
  "👋 Welcome to the Panaversity AI Assistant! How can I help you today?".

Definition start (gemini_api_key : string) : M unit :=
  user_session_set "agent" (VAgent (triage_agent gemini_api_key)) ;;
  user_session_set "config" (VConfig (config gemini_api_key)) ;;
  empty <- new_list ;;
  user_session_set "chat_history" empty ;;
  msg <- Message_new welcome None ;;
  Message_send msg.

(** *** The external runner

    [Runner.run] is not code of this repository.  One call is described
    by what the handler can observe of it: the handoff callbacks it runs,
    in order, and then either a final output or a raised exception (given
    by its [str]).  The runner reads the input list and does not change
    it. *)
Record RunResult :=
  { handoff_calls : list (Closure Agent * RunContextWrapper);
    final_output : string + string }.

Definition Runner : Type := Value → list ChatHistoryEntry → Value → RunResult.

Definition Runner_run (runner : Runner) (agent history config : Value) : M string :=
  λ w, let input := items_of w history in
       let r := runner agent input config in
       (emit (EvRunnerCall agent input config) ;;
        for_each (λ fc, call (fst fc) (snd fc)) (handoff_calls r) ;;
        match final_output r with
        | inl out => ret out
        | inr err => raise (RunnerError err)
        end) w.

(** *** [main] *)

Definition main (runner : Runner) (message_content : string) : M unit :=
  thinking_msg <- Message_new "🤔 Thinking..." None ;;
  Message_send thinking_msg ;;
  agent <- user_session_get "agent" ;;
  config <- user_session_get "config" ;;
  stored <- user_session_get "chat_history" ;;
  history <- py_or stored new_list ;;
  append history {| role := user; content := message_content |} ;;
  try_except
    (response_content <- Runner_run runner agent history config ;;
     Message_set_content thinking_msg response_content ;;
     Message_update thinking_msg ;;
     append history {| role := assistant; content := response_content |} ;;
     user_session_set "chat_history" history ;;
     (λ w, print (LineRepr "✅ Chat history updated: " (items_of w history)) w))
    (λ e,
     Message_set_content thinking_msg ("⚠️ Error: " +:+ str e) ;;
     Message_update thinking_msg ;;
     print (Line ("❌ Error: " +:+ str e))).

(** *** The application: module body, then the UI events of a session *)

Inductive UiEvent :=
| ChatStart
| OnMessage (message_content : string) (runner : Runner).

Definition handle (gemini_api_key : string) (ev : UiEvent) : M unit :=
  match ev with
  | ChatStart => start gemini_api_key
  | OnMessage text runner => main runner text
  end.

(** Chainlit runs one handler per event; an exception escaping a handler
    ends that handler only. *)
Fixpoint serve (gemini_api_key : string) (evs : list UiEvent) (w : World) : World :=
  match evs with
  | [] => w
  | ev :: rest => serve gemini_api_key rest (fst (handle gemini_api_key ev w))
  end.

(** A failing module body aborts the import: no handler exists and no
    event is served. *)
Definition app (environ : gmap string string) (evs : list UiEvent) (w : World)
    : World * Result unit :=
  match module_body environ with
  | inl e => (w, Raise e)
  | inr gemini_api_key => (serve gemini_api_key evs w, Return tt)
  end.

Definition empty_world : World :=
  {| session := ∅; heap := ∅; messages := ∅; trace := [] |}.

(** ** Vocabulary of the specification *)

(** The SessionState of the specification, read off the session
    dictionary: the history is the content of the list object stored
    under ["chat_history"] (empty when nothing is stored). *)
Definition stored_history (w : World) : list ChatHistoryEntry :=
  items_of w (default VNone (session w !! "chat_history")).
Definition current_agent (w : World) : Value := default VNone (session w !! "agent").
Definition current_config (w : World) : Value := default VNone (session w !! "config").

Definition session_state (w : World) : Value * Value * list ChatHistoryEntry :=
  (current_agent w, current_config w, stored_history w).

(** ["chat_history"] holds a list, [None] or nothing: what [start] and
    [main] ever store there. *)
Definition history_is_list (w : World) : bool :=
  match session w !! "chat_history" with
  | Some (VAgent _) | Some (VConfig _) => false
  | _ => true
  end.

(** The list stored under ["chat_history"], if any, is an object of the
    heap. *)
Definition history_allocated (w : World) : bool :=
  match session w !! "chat_history" with
  | Some (VList l) => match heap w !! l with Some _ => true | None => false end
  | _ => true
  end.

(** The list object a turn appends to: the stored one when it is
    non-empty, otherwise the new list of [... or []]. *)
Definition history_loc (w : World) : nat :=
  match session w !! "chat_history" with
  | Some (VList l) =>
      match heap w !! l with
      | Some (_ :: _) => l
      | _ => fresh (dom (heap w))
      end
  | _ => fresh (dom (heap w))
  end.

Definition user_entry (text : string) : ChatHistoryEntry :=
  {| role := user; content := text |}.
Definition assistant_entry (out : string) : ChatHistoryEntry :=
  {| role := assistant; content := out |}.

(** What the runner answers in the turn that [main] runs from [w]. *)
Definition turn_result (runner : Runner) (text : string) (w : World) : RunResult :=
  runner (current_agent w) (stored_history w ++ [user_entry text]) (current_config w).

Definition thinking : string := "🤔 Thinking...".
Definition error_notice (err : string) : string := "⚠️ Error: " +:+ err.

(** What the chat UI shows, by message id: a send displays a message, an
    update replaces the content of a displayed one. *)
Definition show (ui : gmap nat string) (ev : Event) : gmap nat string :=
  match ev with
  | EvSend id _ c => <[id := c]> ui
  | EvUpdate id c => alter (λ _, c) id ui
  | _ => ui
  end.
Definition displayed (t : list Event) : gmap nat string := foldl show ∅ t.

(** The printed lines of a trace. *)
Definition printed (t : list Event) : list LogLine :=
  omap (λ ev, match ev with EvPrint line => Some line | _ => None end) t.

(** Events of handoff callbacks: printed lines, and sends of messages
    other than those in [D]. *)
Definition is_notice (D : gset nat) (ev : Event) : Prop :=
  match ev with
  | EvPrint _ => True
  | EvSend id (Some _) _ => id ∉ D
  | _ => False
  end.

Definition is_message (ev : UiEvent) : bool :=
  match ev with OnMessage _ _ => true | ChatStart => false end.

(** The world a turn of [main] ends in, from the world [w] it starts in,
    the messages [ms] and events [evs] of the handoff callbacks run by the
    runner, and the runner's result. *)
Definition turn_end (runner : Runner) (text : string) (w : World)
    (ms : gmap nat Message) (evs : list Event) : World :=
  let id := fresh (dom (messages w)) in
  let l := history_loc w in
  let u := user_entry text in
  let called :=
    [EvSend id None thinking; EvAppend l u;
     EvRunnerCall (current_agent w) (stored_history w ++ [u]) (current_config w)] in
  match final_output (turn_result runner text w) with
  | inl out =>
      let h := stored_history w ++ [u; assistant_entry out] in
      {| session := <["chat_history" := VList l]> (session w);
         heap := <[l := h]> (heap w);
         messages := ms;
         trace := trace w ++ called ++ evs ++
                  [EvUpdate id out; EvAppend l (assistant_entry out);
                   EvSessionSet "chat_history" (VList l);
                   EvPrint (LineRepr "✅ Chat history updated: " h)] |}
  | inr err =>
      {| session := session w;
         heap := <[l := stored_history w ++ [u]]> (heap w);
         messages := ms;
         trace := trace w ++ called ++ evs ++
                  [EvUpdate id (error_notice err);
                   EvPrint (Line ("❌ Error: " +:+ err))] |}
  end.

(** Runners and environments used in the examples below. *)
Definition answers (out : string) : Runner :=
  λ _ _ _, {| handoff_calls := []; final_output := inl out |}.
Definition fails (err : string) : Runner :=
  λ _ _ _, {| handoff_calls := []; final_output := inr err |}.
Definition hands_off_then_answers (key out : string) : Runner :=
  λ _ _ _, {| handoff_calls := [(LambdaOnHandoff (refund_agent key), {| context := tt |})];
              final_output := inl out |}.
Definition environ_with (key : string) : gmap string string :=
  {[ "GEMINI_API_KEY" := key ]}.

(** ** Vocabulary for the effects of a handler and for sessions *)

(** The agent a handoff callback closes over. *)
Definition captured_agent (f : Closure Agent) : Agent :=
  let 'LambdaOnHandoff a := f in a.

(** The UI messages sent in a stretch of trace, as (author, text), and
    their ids. *)
Definition sends (evs : list Event) : list (option string * string) :=
  omap (λ ev, match ev with EvSend _ a c => Some (a, c) | _ => None end) evs.
Definition send_ids (evs : list Event) : list nat :=
  omap (λ ev, match ev with EvSend id _ _ => Some id | _ => None end) evs.

(** The notice a handoff call puts on the UI. *)
Definition notice_of (fc : Closure Agent * RunContextWrapper) : option string * string :=
  (Some "System", handoff_notice (name (captured_agent (fst fc)))).

(** Kinds of events counted below. *)
Definition is_runner_call (ev : Event) : bool :=
  match ev with EvRunnerCall _ _ _ => true | _ => false end.

(** Every assistant entry directly follows a user entry ([prev] tells
    whether the entry before the list is a user entry). *)
Fixpoint replies_follow_user (prev : bool) (h : list ChatHistoryEntry) : bool :=
  match h with
  | [] => true
  | e :: rest =>
      match role e with
      | user => replies_follow_user true rest
      | assistant => prev && replies_follow_user false rest
      end
  end.

(** A message event whose runner returns a final output on every call. *)
Definition always_answers (ev : UiEvent) : Prop :=
  match ev with
  | OnMessage _ runner => ∀ a h c, ∃ out, final_output (runner a h c) = inl out
  | ChatStart => False
  end.

(** The text of a message event. *)
Definition message_text (ev : UiEvent) : string :=
  match ev with OnMessage text _ => text | ChatStart => EmptyString end.

(** An event that leaves the displayed messages with ids in [D] alone. *)
Definition spares (D : gset nat) (ev : Event) : Prop :=
  match ev with
  | EvSend id _ _ | EvUpdate id _ => id ∉ D
  | _ => True
  end.

(** Every displayed message is a message object of the world. *)
Definition ui_known (w : World) : Prop :=
  dom (displayed (trace w)) ⊆ dom (messages w).

(** * Proofs *)

(** ** The monad *)

Lemma bind_return {A B} (m : M A) (k : A → M B) w w' a :
  m w = (w', Return a) → bind m k w = k a w'.
Proof. intros E. unfold bind. by rewrite E. Qed.

Lemma bind_raise {A B} (m : M A) (k : A → M B) w w' e :
  m w = (w', Raise e) → bind m k w = (w', Raise e).
Proof. intros E. unfold bind. by rewrite E. Qed.

(** ** The handoff callback *)

Lemma on_handoff_run a ctx w :
  on_handoff a ctx w =
    (let id := fresh (dom (messages w)) in
     {| session := session w; heap := heap w;
        messages := <[id := {| msg_content := handoff_notice (name a);
                               msg_author := Some "System" |}]> (messages w);
        trace := trace w ++
                 [EvPrint (Line "--------------------------------");
                  EvPrint (Line ("Handing off to " +:+ name a +:+ "..."));
                  EvPrint (Line "--------------------------------");
                  EvSend id (Some "System") (handoff_notice (name a))] |},
     Return tt).
Proof.
  unfold on_handoff, bind, print, emit, Message_new, Message_send, record, with_messages.
  cbn [session heap messages trace fst snd].
  rewrite lookup_insert_eq. cbn [msg_author msg_content].
  by rewrite <- !app_assoc.
Qed.

Lemma fresh_message_id (ms : gmap nat Message) : ms !! fresh (dom ms) = None.
Proof. apply not_elem_of_dom, is_fresh. Qed.

Lemma is_notice_mono (D D' : gset nat) ev : D ⊆ D' → is_notice D' ev → is_notice D ev.
Proof. intros HD. destruct ev as [id [a|] c| | | | |]; simpl; set_solver. Qed.

(** The callbacks the runner runs only add messages and notices. *)
Lemma callbacks_run (calls : list (Closure Agent * RunContextWrapper)) w :
  ∃ ms evs,
    for_each (λ fc, call (fst fc) (snd fc)) calls w =
      ({| session := session w; heap := heap w; messages := ms;
          trace := trace w ++ evs |}, Return tt)
    ∧ messages w ⊆ ms
    ∧ Forall (is_notice (dom (messages w))) evs.
Proof.
  revert w. induction calls as [|[[a] ctx] calls IH]; intros w.
  - exists (messages w), []. split_and!; [|done|constructor].
    destruct w; cbn. by rewrite app_nil_r.
  - cbn [for_each fst snd call].
    erewrite bind_return by apply on_handoff_run.
    cbn zeta.
    match goal with |- context [for_each _ calls ?w1] => destruct (IH w1) as (ms & evs & -> & Hms & Hevs) end.
    cbn [session heap messages trace] in *.
    eexists ms, (_ ++ evs). split_and!.
    + by rewrite <- app_assoc.
    + etrans; [|exact Hms]. apply insert_subseteq, fresh_message_id.
    + apply Forall_app. split.
      * repeat constructor. apply is_fresh.
      * eapply Forall_impl; [exact Hevs|]. intros ev. apply is_notice_mono.
        rewrite dom_insert_L. set_solver.
Qed.
Lemma Runner_run_run runner agent l cfg w :
  ∃ ms evs,
    Runner_run runner agent (VList l) cfg w =
      (let input := default [] (heap w !! l) in
       ({| session := session w; heap := heap w; messages := ms;
           trace := trace w ++ EvRunnerCall agent input cfg :: evs |},
        match final_output (runner agent input cfg) with
        | inl out => Return out
        | inr err => Raise (RunnerError err)
        end))
    ∧ messages w ⊆ ms
    ∧ Forall (is_notice (dom (messages w))) evs.
Proof.
  unfold Runner_run. cbn [items_of].
  set (input := default [] (heap w !! l)). set (r := runner agent input cfg).
  unfold bind at 1. unfold emit at 1.
  unfold bind at 1.
  destruct (callbacks_run (handoff_calls r) (record (EvRunnerCall agent input cfg) w))
    as (ms & evs & -> & Hms & Hevs).
  exists ms, evs. split_and!; [|done..].
  cbn [session heap messages trace record]. rewrite <- app_assoc. cbn [app].
  by destruct (final_output r).
Qed.
Lemma try_bind_return {A B} (m : M A) (k : A → M B) h w w' a :
  m w = (w', Return a) → try_except (bind m k) h w = try_except (k a) h w'.
Proof. intros E. unfold try_except, bind. by rewrite E. Qed.

Lemma try_bind_raise {A B} (m : M A) (k : A → M B) h w w' e :
  m w = (w', Raise e) → try_except (bind m k) h w = h e w'.
Proof. intros E. unfold try_except, bind. by rewrite E. Qed.

Lemma try_return {A} (m : M A) h w w' a :
  m w = (w', Return a) → try_except m h w = (w', Return a).
Proof. intros E. unfold try_except. by rewrite E. Qed.

Lemma Message_send_run id m w :
  messages w !! id = Some m →
  Message_send id w = (record (EvSend id (msg_author m) (msg_content m)) w, Return tt).
Proof. intros E. unfold Message_send. by rewrite E. Qed.

Lemma Message_update_run id m w :
  messages w !! id = Some m →
  Message_update id w = (record (EvUpdate id (msg_content m)) w, Return tt).
Proof. intros E. unfold Message_update. by rewrite E. Qed.

(** [history = cl.user_session.get("chat_history") or []] *)
Lemma py_or_history w :
  history_is_list w = true →
  ∃ hp,
    py_or (default VNone (session w !! "chat_history")) new_list w =
      (with_heap (λ _, hp) w, Return (VList (history_loc w)))
    ∧ default [] (hp !! history_loc w) = stored_history w
    ∧ ∀ h, <[history_loc w := h]> hp = <[history_loc w := h]> (heap w).
Proof.
  unfold history_is_list, history_loc, stored_history, py_or, truthy, bind, new_list.
  destruct (session w !! "chat_history") as [[| | |l]|] eqn:Hs; try discriminate; intros _;
    cbn.
  1,3: exists (<[fresh (dom (heap w)) := []]> (heap w)); split_and!;
       [done | by rewrite lookup_insert_eq | by intros; rewrite insert_insert_eq].
  destruct (heap w !! l) as [[|e h]|] eqn:Hl; cbn.
  1,3: exists (<[fresh (dom (heap w)) := []]> (heap w)); split_and!;
       [done | by rewrite lookup_insert_eq | by intros; rewrite insert_insert_eq].
  exists (heap w). split_and!; [by destruct w | by rewrite Hl | done].
Qed.

Ltac step := erewrite bind_return by reflexivity.

Lemma main_run runner text w :
  history_is_list w = true →
  ∃ ms evs,
    main runner text w = (turn_end runner text w ms evs, Return tt)
    ∧ Forall (is_notice {[ fresh (dom (messages w)) ]}) evs.
Proof.
  intros Hw. unfold main.
  step. erewrite bind_return by (apply Message_send_run, lookup_insert_eq).
  do 3 step.
  set (mid := fresh (dom (messages w))).
  match goal with |- context [bind (py_or _ _) _ ?w'] => set (w1 := w') end.
  destruct (py_or_history w1 Hw) as (hp & E & Hitems & Hins).
  change (history_loc w1) with (history_loc w) in *.
  change (stored_history w1) with (stored_history w) in *.
  erewrite bind_return by exact E. clear E.
  step.
  match goal with |- context [try_except (bind (Runner_run ?r ?a (VList ?l) ?c) _) _ ?w2] =>
    destruct (Runner_run_run r a l c w2) as (ms & evs & E & Hms & Hevs) end.
  cbn [session heap messages trace record with_heap with_messages with_session
       msg_author msg_content items_of w1] in *.
  rewrite lookup_insert_eq in E. cbn [default from_option id] in E.
  rewrite !Hitems in E |- *. rewrite !Hins in E.
  assert (Hid : ms !! mid = Some {| msg_content := thinking; msg_author := None |}).
  { eapply lookup_weaken; [|exact Hms]. apply lookup_insert_eq. }
  assert (Hevs' : Forall (is_notice {[ mid ]}) evs).
  { eapply Forall_impl; [exact Hevs|]. intros ev. apply is_notice_mono.
    rewrite dom_insert_L. set_solver. }
  unfold turn_end, turn_result. fold mid.
  change (default VNone (session w !! "agent")) with (current_agent w) in *.
  change (default VNone (session w !! "config")) with (current_config w) in *.
  change {| role := user; content := text |} with (user_entry text) in *.
  destruct (final_output _) as [out|err].
  - erewrite try_bind_return by exact E. clear E.
    eexists _, evs. split; [|exact Hevs'].
    erewrite try_return; [reflexivity|].
    step.
    erewrite bind_return
      by (apply Message_update_run; cbn; rewrite lookup_alter_eq, Hid; reflexivity).
    do 2 step.
    unfold print, emit, record, with_heap, with_messages, with_session.
    cbn [session heap messages trace msg_author msg_content items_of].
    rewrite !lookup_insert_eq, insert_insert_eq. cbn [default from_option id].
    rewrite <- !app_assoc. reflexivity.
  - erewrite try_bind_raise by exact E. clear E.
    eexists _, evs. split; [|exact Hevs'].
    step.
    erewrite bind_return
      by (apply Message_update_run; cbn; rewrite lookup_alter_eq, Hid; reflexivity).
    unfold print, emit, record, with_heap, with_messages, with_session.
    cbn [session heap messages trace msg_author msg_content items_of str].
    rewrite <- !app_assoc. reflexivity.
Qed.

Lemma main_untyped runner text w :
  history_is_list w = false →
  ∃ ms e,
    main runner text w =
      ({| session := session w; heap := heap w; messages := ms;
          trace := trace w ++ [EvSend (fresh (dom (messages w))) None thinking] |},
       Raise e).
Proof.
  intros Hw. unfold main.
  step. erewrite bind_return by (apply Message_send_run, lookup_insert_eq).
  do 3 step.
  unfold history_is_list in Hw.
  cbn [session heap messages trace record with_heap with_messages with_session].
  destruct (session w !! "chat_history") as [[| | |l]|] eqn:Hs; try discriminate;
    eexists _, _; reflexivity.
Qed.

(** ** The stored history after a turn *)

Lemma turn_end_success_history runner text w ms evs out :
  final_output (turn_result runner text w) = inl out →
  stored_history (turn_end runner text w ms evs) =
    stored_history w ++ [user_entry text; assistant_entry out].
Proof.
  intros E. unfold turn_end. rewrite E.
  unfold stored_history at 1. cbn [session heap items_of].
  rewrite lookup_insert_eq. cbn. by rewrite lookup_insert_eq.
Qed.

Lemma turn_end_failure_history runner text w ms evs err :
  final_output (turn_result runner text w) = inr err →
  stored_history w ≠ [] →
  stored_history (turn_end runner text w ms evs) = stored_history w ++ [user_entry text].
Proof.
  intros E. unfold turn_end. rewrite E. clear E.
  unfold stored_history, history_loc. cbn [session heap].
  destruct (session w !! "chat_history") as [[| | |l]|]; cbn; try done.
  destruct (heap w !! l) as [[|e h]|]; cbn; try done.
  intros _. by rewrite lookup_insert_eq.
Qed.

Lemma turn_end_prefix runner text w ms evs :
  stored_history w `prefix_of` stored_history (turn_end runner text w ms evs).
Proof.
  unfold turn_end. destruct (final_output _) as [out|err] eqn:E.
  - pose proof (turn_end_success_history runner text w ms evs out E) as H.
    unfold turn_end in H. rewrite E in H. rewrite H. by eexists.
  - unfold stored_history, history_loc. cbn [session heap].
    destruct (session w !! "chat_history") as [[| | |l]|]; cbn; try done.
    destruct (heap w !! l) as [[|e h]|] eqn:Hl; cbn.
    + apply prefix_nil.
    + rewrite lookup_insert_eq. cbn. by exists [user_entry text].
    + apply prefix_nil.
Qed.

Lemma main_history_success runner text w out :
  history_is_list w = true →
  final_output (turn_result runner text w) = inl out →
  stored_history (fst (main runner text w)) =
    stored_history w ++ [user_entry text; assistant_entry out].
Proof.
  intros Hw E. destruct (main_run runner text w Hw) as (ms & evs & -> & _).
  by apply turn_end_success_history.
Qed.

Lemma main_history_failure runner text w err :
  history_is_list w = true →
  final_output (turn_result runner text w) = inr err →
  stored_history w ≠ [] →
  stored_history (fst (main runner text w)) = stored_history w ++ [user_entry text].
Proof.
  intros Hw E Hne. destruct (main_run runner text w Hw) as (ms & evs & -> & _).
  by eapply turn_end_failure_history.
Qed.

Lemma main_history_prefix runner text w :
  stored_history w `prefix_of` stored_history (fst (main runner text w)).
Proof.
  destruct (history_is_list w) eqn:Hw.
  - destruct (main_run runner text w Hw) as (ms & evs & -> & _). apply turn_end_prefix.
  - destruct (main_untyped runner text w Hw) as (ms & e & ->). done.
Qed.

(** ** Session start *)

Lemma start_run key w :
  start key w =
    (let l := fresh (dom (heap w)) in
     let mid := fresh (dom (messages w)) in
     {| session := <["chat_history" := VList l]>
                     (<["config" := VConfig (config key)]>
                        (<["agent" := VAgent (triage_agent key)]> (session w)));
        heap := <[l := []]> (heap w);
        messages := <[mid := {| msg_content := welcome; msg_author := None |}]> (messages w);
        trace := trace w ++
                 [EvSessionSet "agent" (VAgent (triage_agent key));
                  EvSessionSet "config" (VConfig (config key));
                  EvSessionSet "chat_history" (VList l);
                  EvSend mid None welcome] |},
     Return tt).
Proof.
  unfold start. do 4 step.
  step. erewrite Message_send_run by apply lookup_insert_eq.
  unfold record, with_heap, with_messages, with_session.
  cbn [session heap messages trace msg_author msg_content].
  by rewrite <- !app_assoc.
Qed.

Lemma start_session_state key w :
  session_state (fst (start key w)) = (VAgent (triage_agent key), VConfig (config key), []).
Proof.
  rewrite start_run. unfold session_state, current_agent, current_config, stored_history.
  cbn [fst session heap].
  rewrite lookup_insert_eq. rewrite !lookup_insert_ne by done.
  rewrite lookup_insert_eq. rewrite lookup_insert_ne by done.
  rewrite lookup_insert_eq. cbn. by rewrite lookup_insert_eq.
Qed.

(** ** The invariant of the session dictionary *)

Lemma start_history_is_list key w : history_is_list (fst (start key w)) = true.
Proof.
  rewrite start_run. unfold history_is_list. cbn [fst session].
  by rewrite lookup_insert_eq.
Qed.

Lemma main_history_is_list runner text w :
  history_is_list w = true → history_is_list (fst (main runner text w)) = true.
Proof.
  intros Hw. destruct (main_run runner text w Hw) as (ms & evs & -> & _).
  unfold turn_end, history_is_list in *. cbn [fst].
  destruct (final_output _); cbn [session]; [by rewrite lookup_insert_eq | done].
Qed.

Lemma serve_history_is_list key evs w :
  history_is_list w = true → history_is_list (serve key evs w) = true.
Proof.
  revert w. induction evs as [|[|text runner] evs IH]; intros w Hw; cbn [serve handle].
  - done.
  - apply IH, start_history_is_list.
  - by apply IH, main_history_is_list.
Qed.

Lemma serve_app key evs1 evs2 w :
  serve key (evs1 ++ evs2) w = serve key evs2 (serve key evs1 w).
Proof. revert w. induction evs1 as [|ev evs1 IH]; intros w; cbn; [done | apply IH]. Qed.

Lemma serve_messages_prefix key turns w :
  forallb is_message turns = true →
  stored_history w `prefix_of` stored_history (serve key turns w).
Proof.
  revert w. induction turns as [|[|text runner] turns IH]; intros w Hm; cbn in *.
  - done.
  - discriminate.
  - etrans; [apply (main_history_prefix runner text)|]. by apply IH.
Qed.

(** ** What the UI displays *)

Lemma displayed_app t t' : displayed (t ++ t') = foldl show (displayed t) t'.
Proof. apply foldl_app. Qed.

Lemma show_notices mid evs ui :
  Forall (is_notice {[ mid ]}) evs → foldl show ui evs !! mid = ui !! mid.
Proof.
  intros H. revert ui. induction H as [|ev evs Hev _ IH]; intros ui; cbn [foldl]; [done|].
  rewrite IH. destruct ev as [id' [a|] c| | | | |]; cbn in *; try done.
  apply lookup_insert_ne. set_solver.
Qed.

Lemma turn_end_displayed runner text w ms evs :
  Forall (is_notice {[ fresh (dom (messages w)) ]}) evs →
  displayed (trace (turn_end runner text w ms evs)) !! fresh (dom (messages w)) =
    Some match final_output (turn_result runner text w) with
         | inl out => out
         | inr err => error_notice err
         end.
Proof.
  intros Hevs. unfold turn_end.
  destruct (final_output _) as [out|err]; cbn [trace];
    rewrite displayed_app, !foldl_app; cbn [foldl show];
    by rewrite lookup_alter_eq, show_notices, lookup_insert_eq.
Qed.

Lemma turn_end_trace runner text w ms evs :
  ∃ rest,
    trace (turn_end runner text w ms evs) =
      trace w ++
      EvSend (fresh (dom (messages w))) None thinking
      :: EvAppend (history_loc w) (user_entry text)
      :: EvRunnerCall (current_agent w) (stored_history w ++ [user_entry text])
           (current_config w)
      :: rest.
Proof. unfold turn_end. destruct (final_output _); cbn [trace app]; by eexists. Qed.

Lemma turn_end_printed_failure runner text w ms evs err :
  final_output (turn_result runner text w) = inr err →
  last (printed (trace (turn_end runner text w ms evs))) =
    Some (Line ("❌ Error: " +:+ err)).
Proof.
  intros E. unfold turn_end. rewrite E. cbn [trace]. unfold printed.
  rewrite !app_assoc, omap_app. cbn [omap list_omap].
  by rewrite last_snoc.
Qed.

(** * The claims *)

(** ** Successful turns *)

(** C2: in a turn whose runner call succeeds, the stored history grows by
    exactly two entries: the user entry with the message text, then the
    assistant entry with the runner's final output. *)
Theorem C2_successful_turn_appends_user_then_assistant
    (runner : Runner) (text out : string) (w : World) :
  history_is_list w = true →
  final_output (turn_result runner text w) = inl out →
  stored_history (fst (main runner text w)) =
    stored_history w ++
    [{| role := user; content := text |}; {| role := assistant; content := out |}]
  ∧ length (stored_history (fst (main runner text w))) = length (stored_history w) + 2.
Proof.
  intros Hw E. rewrite (main_history_success runner text w out Hw E).
  split; [done|]. by rewrite length_app.
Qed.

Lemma C2_witness :
  let w := serve "k" [ChatStart; OnMessage "hi" (answers "hello")] empty_world in
  history_is_list w = true
  ∧ final_output (turn_result (answers "sure") "more" w) = inl "sure"
  ∧ stored_history (fst (main (answers "sure") "more" w)) =
      [user_entry "hi"; assistant_entry "hello"; user_entry "more"; assistant_entry "sure"].
Proof.
  intros w.
  assert (Hw : history_is_list w = true) by (vm_compute; reflexivity).
  assert (E : final_output (turn_result (answers "sure") "more" w) = inl "sure")
    by reflexivity.
  split_and!; [exact Hw | exact E |].
  etrans;
    [exact (proj1 (C2_successful_turn_appends_user_then_assistant
                     (answers "sure") "more" "sure" w Hw E))|].
  vm_compute. reflexivity.
Defined.

(** C6: in a turn whose runner call succeeds, the placeholder shown in
    the UI has its content replaced by the runner's final output, and the
    updated history is written back under ["chat_history"]. *)
Theorem C6_successful_turn_replaces_placeholder_and_persists
    (runner : Runner) (text out : string) (w : World) :
  history_is_list w = true →
  final_output (turn_result runner text w) = inl out →
  ∃ (mid l : nat) (rest : list Event),
    let w' := fst (main runner text w) in
    trace w' = trace w ++ EvSend mid None "🤔 Thinking..." :: rest
    ∧ EvUpdate mid out ∈ rest
    ∧ displayed (trace w') !! mid = Some out
    ∧ EvSessionSet "chat_history" (VList l) ∈ rest
    ∧ session w' !! "chat_history" = Some (VList l)
    ∧ heap w' !! l = Some (stored_history w ++ [user_entry text; assistant_entry out]).
Proof.
  intros Hw E. destruct (main_run runner text w Hw) as (ms & evs & -> & Hevs).
  exists (fresh (dom (messages w))), (history_loc w). cbn [fst].
  pose proof (turn_end_displayed runner text w ms evs Hevs) as Hd.
  rewrite E in Hd. unfold turn_end in *. rewrite E in *. cbn [trace session heap app] in *.
  eexists. split_and!; [reflexivity| | exact Hd | | apply lookup_insert_eq..].
  - rewrite !elem_of_cons, elem_of_app, !elem_of_cons. naive_solver.
  - rewrite !elem_of_cons, elem_of_app, !elem_of_cons. naive_solver.
Qed.

Lemma C6_witness :
  let w := serve "k" [ChatStart] empty_world in
  history_is_list w = true
  ∧ final_output (turn_result (hands_off_then_answers "k" "done") "refund?" w) = inl "done"
  ∧ ∃ (mid l : nat) (rest : list Event),
      let w' := fst (main (hands_off_then_answers "k" "done") "refund?" w) in
      trace w' = trace w ++ EvSend mid None "🤔 Thinking..." :: rest
      ∧ EvUpdate mid "done" ∈ rest
      ∧ displayed (trace w') !! mid = Some "done"
      ∧ EvSessionSet "chat_history" (VList l) ∈ rest
      ∧ session w' !! "chat_history" = Some (VList l)
      ∧ heap w' !! l =
          Some (stored_history w ++ [user_entry "refund?"; assistant_entry "done"]).
Proof.
  intros w.
  assert (Hw : history_is_list w = true) by (vm_compute; reflexivity).
  assert (E : final_output (turn_result (hands_off_then_answers "k" "done") "refund?" w)
              = inl "done") by reflexivity.
  split_and!; [exact Hw | exact E |].
  exact (C6_successful_turn_replaces_placeholder_and_persists
           (hands_off_then_answers "k" "done") "refund?" "done" w Hw E).
Defined.

(** ** Failed turns *)

(** C4: in a turn whose runner call raises, the placeholder shown in the
    UI has its content replaced by a notice that begins with
    ["⚠️ Error:"] and continues with the error's text, and the error is
    printed. *)
Theorem C4_failed_turn_shows_and_logs_error
    (runner : Runner) (text err : string) (w : World) :
  history_is_list w = true →
  final_output (turn_result runner text w) = inr err →
  ∃ (mid : nat) (rest : list Event),
    let w' := fst (main runner text w) in
    trace w' = trace w ++ EvSend mid None "🤔 Thinking..." :: rest
    ∧ displayed (trace w') !! mid = Some ("⚠️ Error: " +:+ err)
    ∧ String.prefix "⚠️ Error:" ("⚠️ Error: " +:+ err) = true
    ∧ last (printed (trace w')) = Some (Line ("❌ Error: " +:+ err)).
Proof.
  intros Hw E. destruct (main_run runner text w Hw) as (ms & evs & -> & Hevs).
  exists (fresh (dom (messages w))). cbn [fst].
  pose proof (turn_end_displayed runner text w ms evs Hevs) as Hd.
  pose proof (turn_end_printed_failure runner text w ms evs err E) as Hp.
  rewrite E in Hd. unfold turn_end in *. rewrite E in *. cbn [trace app] in *.
  eexists. split_and!; [reflexivity | exact Hd | reflexivity | exact Hp].
Qed.

Lemma C4_witness :
  let w := serve "k" [ChatStart] empty_world in
  history_is_list w = true
  ∧ final_output (turn_result (fails "network down") "hi" w) = inr "network down"
  ∧ ∃ (mid : nat) (rest : list Event),
      let w' := fst (main (fails "network down") "hi" w) in
      trace w' = trace w ++ EvSend mid None "🤔 Thinking..." :: rest
      ∧ displayed (trace w') !! mid = Some ("⚠️ Error: " +:+ "network down")
      ∧ String.prefix "⚠️ Error:" ("⚠️ Error: " +:+ "network down") = true
      ∧ last (printed (trace w')) = Some (Line ("❌ Error: " +:+ "network down")).
Proof.
  intros w.
  assert (Hw : history_is_list w = true) by (vm_compute; reflexivity).
  assert (E : final_output (turn_result (fails "network down") "hi" w)
              = inr "network down") by reflexivity.
  split_and!; [exact Hw | exact E |].
  exact (C4_failed_turn_shows_and_logs_error (fails "network down") "hi" "network down" w Hw E).
Defined.

(** C1, at the input where the code departs from it: the first turn of a
    session (the stored history is the empty list written by [start])
    whose runner call raises.  [... or []] yields a new list, the user
    entry goes to that list, and the failure path never stores it: the
    stored history stays empty. *)
Theorem C1_failed_first_turn_stores_no_user_entry :
  let w := serve "k" [ChatStart] empty_world in
  let w' := fst (main (fails "network down") "hi" w) in
  history_is_list w = true
  ∧ final_output (turn_result (fails "network down") "hi" w) = inr "network down"
  ∧ stored_history w = []
  ∧ stored_history w' = []
  ∧ EvAppend 1 (user_entry "hi") ∈ trace w'
  ∧ session w' !! "chat_history" = Some (VList 0).
Proof.
  vm_compute. split_and!; try reflexivity. set_solver.
Qed.

(** ** Order of the steps of a turn *)

(** C5: for every incoming message the handler first sends the
    "thinking" placeholder, then appends the user entry to the history,
    and only then calls the runner, with the session's agent, the history
    including the entry just appended, and the session's configuration. *)
Theorem C5_turn_sends_placeholder_appends_user_then_calls_runner
    (runner : Runner) (text : string) (w : World) :
  history_is_list w = true →
  ∃ (mid l : nat) (rest : list Event),
    trace (fst (main runner text w)) =
      trace w ++
      EvSend mid None "🤔 Thinking..."
      :: EvAppend l {| role := user; content := text |}
      :: EvRunnerCall (current_agent w)
           (stored_history w ++ [{| role := user; content := text |}])
           (current_config w)
      :: rest.
Proof.
  intros Hw. destruct (main_run runner text w Hw) as (ms & evs & -> & _).
  destruct (turn_end_trace runner text w ms evs) as (rest & E).
  by exists (fresh (dom (messages w))), (history_loc w), rest.
Qed.

Lemma C5_witness :
  let w := serve "k" [ChatStart; OnMessage "hi" (answers "hello")] empty_world in
  history_is_list w = true
  ∧ ∃ (mid l : nat) (rest : list Event),
      trace (fst (main (fails "timeout") "again" w)) =
        trace w ++
        EvSend mid None "🤔 Thinking..."
        :: EvAppend l (user_entry "again")
        :: EvRunnerCall (VAgent (triage_agent "k"))
             [user_entry "hi"; assistant_entry "hello"; user_entry "again"]
             (VConfig (config "k"))
        :: rest.
Proof.
  intros w.
  assert (Hw : history_is_list w = true) by (vm_compute; reflexivity).
  split; [exact Hw|].
  destruct (C5_turn_sends_placeholder_appends_user_then_calls_runner
              (fails "timeout") "again" w Hw) as (mid & l & rest & E).
  exists mid, l, rest. etrans; [exact E|]. vm_compute. reflexivity.
Defined.

(** ** Frame of the message handler *)

(** C10: the message handler never writes the session's agent or run
    configuration: after it has run, with or without an error, every
    session entry other than ["chat_history"] is what it was. *)
Theorem C10_main_writes_only_chat_history (runner : Runner) (text : string) (w : World) :
  let w' := fst (main runner text w) in
  session w' !! "agent" = session w !! "agent"
  ∧ session w' !! "config" = session w !! "config"
  ∧ delete "chat_history" (session w') = delete "chat_history" (session w).
Proof.
  cbn zeta. destruct (history_is_list w) eqn:Hw.
  - destruct (main_run runner text w Hw) as (ms & evs & -> & _).
    unfold turn_end. cbn [fst]. destruct (final_output _); cbn [session]; [|done].
    rewrite !lookup_insert_ne by done. by rewrite delete_insert_eq.
  - by destruct (main_untyped runner text w Hw) as (ms & e & ->).
Qed.

(** ** The handoff notifier and the triage agent *)

(** C7: the handoff notifier sends one message authored by "System"
    whose text contains "Handing off to <name>..." for the name of the
    agent handed to, prints that line, returns nothing and leaves the
    session and the history untouched; the triage agent's handoffs are
    the billing agent and the refund agent, each with a callback that
    runs the notifier on its own agent. *)
Theorem C7_handoff_notifier_and_triage_wiring
    (key : string) (agent : Agent) (ctx : RunContextWrapper) (w : World) :
  (∃ (mid : nat) (w' : World) (before after : string),
     on_handoff agent ctx w = (w', Return tt)
     ∧ session w' = session w
     ∧ heap w' = heap w
     ∧ trace w' = trace w ++
         [EvPrint (Line "--------------------------------");
          EvPrint (Line ("Handing off to " +:+ name agent +:+ "..."));
          EvPrint (Line "--------------------------------");
          EvSend mid (Some "System")
            (before +:+ "Handing off to " +:+ name agent +:+ "..." +:+ after)])
  ∧ handoff_agent <$> handoffs (triage_agent key) = [billing_agent key; refund_agent key]
  ∧ name (billing_agent key) = "Billing Agent"
  ∧ name (refund_agent key) = "Refund Agent"
  ∧ Forall (λ h, ∀ ctx' w0,
              call (handoff_on_handoff h) ctx' w0 = on_handoff (handoff_agent h) ctx' w0)
           (handoffs (triage_agent key)).
Proof.
  split_and!; [|done..|by repeat constructor].
  rewrite on_handoff_run. cbn zeta.
  eexists _, _, "🔄 **", _. split_and!; [reflexivity..|].
  cbn [trace]. reflexivity.
Qed.

(** ** Session start *)

(** C8: whatever the session held before, session start leaves it with
    the triage agent, the constructed configuration and an empty history
    (a new list object, so earlier entries are gone); running it again
    gives the same session state. *)
Theorem C8_session_start_resets_session_state (key : string) (w : World) :
  let w' := fst (start key w) in
  session_state w' = (VAgent (triage_agent key), VConfig (config key), [])
  ∧ session_state (fst (start key w')) = session_state w'
  ∧ ∃ l, session w' !! "chat_history" = Some (VList l)
         ∧ heap w' !! l = Some []
         ∧ heap w !! l = None.
Proof.
  cbn zeta. rewrite !start_session_state. split_and!; [done..|].
  rewrite start_run. cbn [fst session heap].
  exists (fresh (dom (heap w))). split_and!; [apply lookup_insert_eq..|].
  apply not_elem_of_dom, is_fresh.
Qed.

(** ** Startup *)

(** C3 as the code has it: when the API key variable is unset, or set to
    the empty string, the module body raises the configuration error and
    nothing else happens (no handler runs: no agent is built, no session
    entry written, no message sent); when it is set to a non-empty
    string, startup proceeds: the events are served with that key, and a
    session start stores the triage agent and sends the welcome
    message. *)
Theorem C3_startup_requires_nonempty_api_key
    (environ : gmap string string) (evs : list UiEvent) (w : World) :
  (getenv environ "GEMINI_API_KEY" = None
   ∨ getenv environ "GEMINI_API_KEY" = Some EmptyString →
   app environ evs w = (w, Raise key_error))
  ∧ (∀ key, getenv environ "GEMINI_API_KEY" = Some key → key ≠ EmptyString →
       app environ evs w = (serve key evs w, Return tt)
       ∧ ∃ mid, let w' := fst (app environ [ChatStart] w) in
                current_agent w' = VAgent (triage_agent key)
                ∧ last (trace w') = Some (EvSend mid None welcome)).
Proof.
  unfold app, module_body. split.
  - by intros [-> | ->].
  - intros key -> Hkey. destruct key as [|c key]; [done|]. cbn [not_key default from_option id].
    split; [done|]. cbn [serve handle fst].
    pose proof (start_session_state (String c key) w) as Hs.
    rewrite start_run in *. cbn [fst trace] in *.
    exists (fresh (dom (messages w))). split; [by injection Hs|].
    by rewrite last_app.
Qed.

Lemma C3_witness :
  (app ∅ [ChatStart] empty_world = (empty_world, Raise key_error))
  ∧ (app (environ_with "k") [ChatStart] empty_world = (serve "k" [ChatStart] empty_world, Return tt)
     ∧ ∃ mid, let w' := fst (app (environ_with "k") [ChatStart] empty_world) in
              current_agent w' = VAgent (triage_agent "k")
              ∧ last (trace w') = Some (EvSend mid None welcome)).
Proof.
  split.
  - apply (proj1 (C3_startup_requires_nonempty_api_key ∅ [ChatStart] empty_world)).
    left. reflexivity.
  - apply (proj2 (C3_startup_requires_nonempty_api_key (environ_with "k") [ChatStart] empty_world)).
    + reflexivity.
    + discriminate.
Defined.

(** C3 as stated fails: the variable can be set, to the empty string, and
    startup still raises the configuration error. *)
Lemma C3_counterexample_key_set_but_empty :
  getenv (environ_with EmptyString) "GEMINI_API_KEY" = Some EmptyString
  ∧ app (environ_with EmptyString) [ChatStart] empty_world = (empty_world, Raise key_error).
Proof. split; reflexivity. Qed.

(** ** Append-only history *)

(** C9 as the code has it: across the message turns of a session the
    stored history only grows at its end: after any further message
    turns it extends the stored history of every earlier state, entries
    kept in place; a successful turn appends exactly the user entry then
    the assistant entry, and a failed turn on a non-empty history appends
    exactly the user entry.  Session start is not part of it: it puts an
    empty history in place. *)
Theorem C9_history_append_only_across_message_turns :
  (∀ key (earlier turns : list UiEvent) (w : World),
     forallb is_message turns = true →
     stored_history (serve key earlier w)
       `prefix_of` stored_history (serve key (earlier ++ turns) w))
  ∧ (∀ (runner : Runner) (text : string) (w : World),
       history_is_list w = true →
       match final_output (turn_result runner text w) with
       | inl out =>
           stored_history (fst (main runner text w)) =
             stored_history w ++ [user_entry text; assistant_entry out]
       | inr _ =>
           stored_history w ≠ [] →
           stored_history (fst (main runner text w)) = stored_history w ++ [user_entry text]
       end).
Proof.
  split.
  - intros key earlier turns w Hm. rewrite serve_app. by apply serve_messages_prefix.
  - intros runner text w Hw. destruct (final_output _) as [out|err] eqn:E.
    + by apply main_history_success.
    + intros Hne. by eapply main_history_failure.
Qed.

Lemma C9_witness :
  let earlier := [ChatStart; OnMessage "hi" (answers "hello")] in
  let turns := [OnMessage "a" (fails "boom"); OnMessage "b" (answers "ok")] in
  forallb is_message turns = true
  ∧ stored_history (serve "k" earlier empty_world)
      `prefix_of` stored_history (serve "k" (earlier ++ turns) empty_world)
  ∧ stored_history (serve "k" (earlier ++ turns) empty_world) =
      [user_entry "hi"; assistant_entry "hello"; user_entry "a";
       user_entry "b"; assistant_entry "ok"].
Proof.
  intros earlier turns.
  assert (Hm : forallb is_message turns = true) by reflexivity.
  split_and!; [exact Hm | | vm_compute; reflexivity].
  exact (proj1 C9_history_append_only_across_message_turns "k" earlier turns empty_world Hm).
Defined.

(** C9 as stated fails twice: a second session start discards the
    stored history, which therefore does not extend the earlier one; and
    a failed first turn appends no user entry to the stored history. *)
Lemma C9_counterexample_restart_and_failed_first_turn :
  (let w1 := serve "k" [ChatStart; OnMessage "hi" (answers "hello")] empty_world in
   let w2 := serve "k" [ChatStart; OnMessage "hi" (answers "hello"); ChatStart] empty_world in
   stored_history w1 = [user_entry "hi"; assistant_entry "hello"]
   ∧ stored_history w2 = []
   ∧ ¬ stored_history w1 `prefix_of` stored_history w2)
  ∧ (let w0 := serve "k" [ChatStart] empty_world in
     final_output (turn_result (fails "boom") "hi" w0) = inr "boom"
     ∧ stored_history (fst (main (fails "boom") "hi" w0)) = stored_history w0).
Proof.
  split; cbn zeta.
  - assert (E1 : stored_history (serve "k" [ChatStart; OnMessage "hi" (answers "hello")] empty_world)
                 = [user_entry "hi"; assistant_entry "hello"]) by (vm_compute; reflexivity).
    assert (E2 : stored_history
                   (serve "k" [ChatStart; OnMessage "hi" (answers "hello"); ChatStart] empty_world)
                 = []) by (vm_compute; reflexivity).
    rewrite E1, E2. split_and!; [done..|]. intros [k Hk]. discriminate.
  - split; vm_compute; reflexivity.
Qed.

(** * Further properties of the handlers *)

(** A failed turn on a non-empty stored history keeps the user entry: the
    append acts on the stored list object itself. *)
Theorem failed_turn_on_nonempty_history_keeps_user_entry
    (runner : Runner) (text err : string) (w : World) :
  history_is_list w = true →
  final_output (turn_result runner text w) = inr err →
  stored_history w ≠ [] →
  stored_history (fst (main runner text w)) =
    stored_history w ++ [{| role := user; content := text |}].
Proof. apply main_history_failure. Qed.

Lemma failed_turn_on_nonempty_history_witness :
  let w := serve "k" [ChatStart; OnMessage "hi" (answers "hello")] empty_world in
  stored_history (fst (main (fails "boom") "again" w)) =
    [user_entry "hi"; assistant_entry "hello"; user_entry "again"].
Proof.
  intros w.
  assert (Hw : history_is_list w = true) by (vm_compute; reflexivity).
  assert (E : final_output (turn_result (fails "boom") "again" w) = inr "boom") by reflexivity.
  assert (E0 : stored_history w = [user_entry "hi"; assistant_entry "hello"])
    by (vm_compute; reflexivity).
  assert (Hne : stored_history w ≠ []) by (rewrite E0; discriminate).
  etrans;
    [exact (failed_turn_on_nonempty_history_keeps_user_entry (fails "boom") "again" "boom"
              w Hw E Hne)|].
  rewrite E0. reflexivity.
Defined.

(** A failed turn on an empty stored history leaves it empty: the user
    entry is appended to the new list of [... or []], which the failure
    path does not store. *)
Theorem failed_turn_on_empty_history_stores_nothing
    (runner : Runner) (text err : string) (w : World) :
  history_is_list w = true →
  history_allocated w = true →
  final_output (turn_result runner text w) = inr err →
  stored_history w = [] →
  stored_history (fst (main runner text w)) = [].
Proof.
  intros Hw Ha E H0. destruct (main_run runner text w Hw) as (ms & evs & -> & _).
  unfold turn_end. rewrite E. cbn [fst].
  unfold stored_history, history_loc, history_allocated in *. cbn [session heap].
  destruct (session w !! "chat_history") as [[| | |l]|]; cbn in *; try done.
  destruct (heap w !! l) as [[|e h]|] eqn:Hl; cbn in *; try done.
  rewrite lookup_insert_ne, Hl; [done|].
  intros <-. pose proof (is_fresh (dom (heap w))) as Hf.
  apply not_elem_of_dom in Hf. congruence.
Qed.

Lemma failed_turn_on_empty_history_witness :
  let w := serve "k" [ChatStart] empty_world in
  stored_history (fst (main (fails "boom") "hi" w)) = [].
Proof.
  intros w.
  assert (Hw : history_is_list w = true) by (vm_compute; reflexivity).
  assert (Ha : history_allocated w = true) by (vm_compute; reflexivity).
  assert (E : final_output (turn_result (fails "boom") "hi" w) = inr "boom") by reflexivity.
  assert (E0 : stored_history w = []) by (vm_compute; reflexivity).
  exact (failed_turn_on_empty_history_stores_nothing (fails "boom") "hi" "boom" w Hw Ha E E0).
Defined.


(** Two successful turns in a row add four entries, alternating user and
    assistant. *)
Theorem two_successful_turns_alternate
    (r1 r2 : Runner) (t1 t2 o1 o2 : string) (w : World) :
  history_is_list w = true →
  final_output (turn_result r1 t1 w) = inl o1 →
  final_output (turn_result r2 t2 (fst (main r1 t1 w))) = inl o2 →
  stored_history (fst (main r2 t2 (fst (main r1 t1 w)))) =
    stored_history w ++
    [{| role := user; content := t1 |}; {| role := assistant; content := o1 |};
     {| role := user; content := t2 |}; {| role := assistant; content := o2 |}].
Proof.
  intros Hw E1 E2.
  rewrite (main_history_success r2 t2 _ o2 (main_history_is_list r1 t1 w Hw) E2).
  rewrite (main_history_success r1 t1 w o1 Hw E1).
  by rewrite <- app_assoc.
Qed.

Lemma two_successful_turns_witness :
  let w := serve "k" [ChatStart] empty_world in
  stored_history (fst (main (answers "b") "c" (fst (main (answers "a") "q" w)))) =
    [user_entry "q"; assistant_entry "a"; user_entry "c"; assistant_entry "b"].
Proof.
  intros w.
  assert (Hw : history_is_list w = true) by (vm_compute; reflexivity).
  assert (E1 : final_output (turn_result (answers "a") "q" w) = inl "a") by reflexivity.
  assert (E2 : final_output (turn_result (answers "b") "c" (fst (main (answers "a") "q" w)))
               = inl "b") by reflexivity.
  etrans; [exact (two_successful_turns_alternate (answers "a") (answers "b")
                    "q" "c" "a" "b" w Hw E1 E2)|].
  vm_compute. reflexivity.
Defined.

(** * The effects of a handler, event by event *)

(** The callbacks run by the runner, with the messages they send. *)
Lemma callbacks_run_sends (calls : list (Closure Agent * RunContextWrapper)) w :
  ∃ ms evs,
    for_each (λ fc, call (fst fc) (snd fc)) calls w =
      ({| session := session w; heap := heap w; messages := ms;
          trace := trace w ++ evs |}, Return tt)
    ∧ messages w ⊆ ms
    ∧ Forall (is_notice (dom (messages w))) evs
    ∧ (∀ id, id ∈ send_ids evs → id ∈ dom ms)
    ∧ sends evs = notice_of <$> calls.
Proof.
  revert w. induction calls as [|[[a] ctx] calls IH]; intros w.
  - exists (messages w), []. split_and!; [|done|constructor|by intros id ?%elem_of_nil|done].
    destruct w; cbn. by rewrite app_nil_r.
  - cbn [for_each fst snd call].
    erewrite bind_return by apply on_handoff_run.
    cbn zeta.
    match goal with |- context [for_each _ calls ?w1] =>
      destruct (IH w1) as (ms & evs & -> & Hms & Hevs & Hids & Hsends) end.
    cbn [session heap messages trace] in *.
    eexists ms, (_ ++ evs). split_and!.
    + by rewrite <- app_assoc.
    + etrans; [|exact Hms]. apply insert_subseteq, fresh_message_id.
    + apply Forall_app. split.
      * repeat constructor. apply is_fresh.
      * eapply Forall_impl; [exact Hevs|]. intros ev. apply is_notice_mono.
        rewrite dom_insert_L. set_solver.
    + intros id. unfold send_ids. rewrite omap_app, elem_of_app. cbn.
      intros [Hid|Hid]; [|by apply Hids].
      apply list_elem_of_singleton in Hid as ->.
      apply elem_of_dom. eapply lookup_weaken_is_Some; [|exact Hms].
      rewrite lookup_insert_eq. by eexists.
    + unfold sends in *. rewrite omap_app, Hsends. reflexivity.
Qed.

Lemma Runner_run_sends runner agent l cfg w :
  ∃ ms evs,
    Runner_run runner agent (VList l) cfg w =
      (let input := default [] (heap w !! l) in
       ({| session := session w; heap := heap w; messages := ms;
           trace := trace w ++ EvRunnerCall agent input cfg :: evs |},
        match final_output (runner agent input cfg) with
        | inl out => Return out
        | inr err => Raise (RunnerError err)
        end))
    ∧ messages w ⊆ ms
    ∧ Forall (is_notice (dom (messages w))) evs
    ∧ (∀ id, id ∈ send_ids evs → id ∈ dom ms)
    ∧ sends evs = notice_of <$> handoff_calls (runner agent (default [] (heap w !! l)) cfg).
Proof.
  unfold Runner_run. cbn [items_of].
  set (input := default [] (heap w !! l)). set (r := runner agent input cfg).
  unfold bind at 1. unfold emit at 1.
  unfold bind at 1.
  destruct (callbacks_run_sends (handoff_calls r) (record (EvRunnerCall agent input cfg) w))
    as (ms & evs & -> & Hms & Hevs & Hids & Hsends).
  exists ms, evs. split_and!; [|done..].
  cbn [session heap messages trace record]. rewrite <- app_assoc. cbn [app].
  by destruct (final_output r).
Qed.

(** A turn of [main], with what is known of the callbacks' events: they
    are notices on new message ids, one per handoff call, in order. *)
Lemma main_run_sends runner text w :
  history_is_list w = true →
  ∃ ms evs,
    main runner text w = (turn_end runner text w ms evs, Return tt)
    ∧ Forall (is_notice ({[ fresh (dom (messages w)) ]} ∪ dom (messages w))) evs
    ∧ dom (messages w) ⊆ dom ms
    ∧ fresh (dom (messages w)) ∈ dom ms
    ∧ (∀ id, id ∈ send_ids evs → id ∈ dom ms)
    ∧ sends evs = notice_of <$> handoff_calls (turn_result runner text w).
Proof.
  intros Hw. unfold main.
  step. erewrite bind_return by (apply Message_send_run, lookup_insert_eq).
  do 3 step.
  set (mid := fresh (dom (messages w))).
  match goal with |- context [bind (py_or _ _) _ ?w'] => set (w1 := w') end.
  destruct (py_or_history w1 Hw) as (hp & E & Hitems & Hins).
  change (history_loc w1) with (history_loc w) in *.
  change (stored_history w1) with (stored_history w) in *.
  erewrite bind_return by exact E. clear E.
  step.
  match goal with |- context [try_except (bind (Runner_run ?r ?a (VList ?l) ?c) _) _ ?w2] =>
    destruct (Runner_run_sends r a l c w2) as (ms & evs & E & Hms & Hevs & Hids & Hsends) end.
  cbn [session heap messages trace record with_heap with_messages with_session
       msg_author msg_content items_of w1] in *.
  rewrite lookup_insert_eq in E, Hsends. cbn [default from_option id] in E, Hsends.
  rewrite !Hitems in E, Hsends |- *. rewrite !Hins in E.
  assert (Hid : ms !! mid = Some {| msg_content := thinking; msg_author := None |}).
  { eapply lookup_weaken; [|exact Hms]. apply lookup_insert_eq. }
  assert (Hevs' : Forall (is_notice ({[ mid ]} ∪ dom (messages w))) evs).
  { by rewrite dom_insert_L in Hevs. }
  assert (Hdom : dom (messages w) ⊆ dom ms).
  { apply subseteq_dom in Hms. rewrite dom_insert_L in Hms. set_solver. }
  unfold turn_end, turn_result. fold mid.
  change (default VNone (session w !! "agent")) with (current_agent w) in *.
  change (default VNone (session w !! "config")) with (current_config w) in *.
  change {| role := user; content := text |} with (user_entry text) in *.
  assert (Hdom' : ∀ f, dom (messages w) ⊆ dom (alter f mid ms)
                       ∧ mid ∈ dom (alter f mid ms)
                       ∧ ∀ id, id ∈ send_ids evs → id ∈ dom (alter f mid ms)).
  { intros f. rewrite dom_alter_L. split_and!; [done| |done].
    apply elem_of_dom. by eexists. }
  destruct (final_output _) as [out|err].
  - erewrite try_bind_return by exact E. clear E.
    eexists (alter _ mid ms), evs.
    split_and!; [|exact Hevs'|exact (proj1 (Hdom' _))|exact (proj1 (proj2 (Hdom' _)))
                |exact (proj2 (proj2 (Hdom' _)))|exact Hsends].
    erewrite try_return; [reflexivity|].
    step.
    erewrite bind_return
      by (apply Message_update_run; cbn; rewrite lookup_alter_eq, Hid; reflexivity).
    do 2 step.
    unfold print, emit, record, with_heap, with_messages, with_session.
    cbn [session heap messages trace msg_author msg_content items_of].
    rewrite !lookup_insert_eq, insert_insert_eq. cbn [default from_option id].
    rewrite <- !app_assoc. reflexivity.
  - erewrite try_bind_raise by exact E. clear E.
    eexists (alter _ mid ms), evs.
    split_and!; [|exact Hevs'|exact (proj1 (Hdom' _))|exact (proj1 (proj2 (Hdom' _)))
                |exact (proj2 (proj2 (Hdom' _)))|exact Hsends].
    step.
    erewrite bind_return
      by (apply Message_update_run; cbn; rewrite lookup_alter_eq, Hid; reflexivity).
    unfold print, emit, record, with_heap, with_messages, with_session.
    cbn [session heap messages trace msg_author msg_content items_of str].
    rewrite <- !app_assoc. reflexivity.
Qed.

Lemma notices_no_runner_call D evs :
  Forall (is_notice D) evs → filter (λ ev, is_runner_call ev = true) evs = [].
Proof.
  induction 1 as [|ev evs Hev _ IH]; [done|].
  rewrite filter_cons, IH. by destruct ev.
Qed.


(** ** What a turn puts on the UI *)

(** The messages sent during a turn are the placeholder and then one
    "System" notice per handoff callback the runner runs, in the order of
    the calls; all of them come after the runner call and before the
    placeholder is updated, and nothing is sent after the update. *)
Theorem turn_sends_placeholder_then_handoff_notices
    (runner : Runner) (text : string) (w : World) :
  history_is_list w = true →
  ∃ (mid l : nat) (evs tail : list Event),
    trace (fst (main runner text w)) =
      trace w ++
      [EvSend mid None "🤔 Thinking...";
       EvAppend l {| role := user; content := text |};
       EvRunnerCall (current_agent w)
         (stored_history w ++ [{| role := user; content := text |}]) (current_config w)]
      ++ evs
      ++ EvUpdate mid
           match final_output (turn_result runner text w) with
           | inl out => out
           | inr err => "⚠️ Error: " +:+ err
           end
         :: tail
    ∧ sends evs = notice_of <$> handoff_calls (turn_result runner text w)
    ∧ sends tail = [].
Proof.
  intros Hw.
  destruct (main_run_sends runner text w Hw) as (ms & evs & -> & _ & _ & _ & _ & Hs).
  exists (fresh (dom (messages w))), (history_loc w), evs.
  unfold turn_end. cbn [fst]. destruct (final_output _); cbn [trace]; eexists; by split_and!.
Qed.

Lemma turn_sends_witness :
  let w := serve "k" [ChatStart] empty_world in
  ∃ (mid l : nat) (evs tail : list Event),
    trace (fst (main (hands_off_then_answers "k" "done") "refund?" w)) =
      trace w ++
      [EvSend mid None "🤔 Thinking..."; EvAppend l (user_entry "refund?");
       EvRunnerCall (current_agent w) (stored_history w ++ [user_entry "refund?"])
         (current_config w)]
      ++ evs ++ EvUpdate mid "done" :: tail
    ∧ sends evs = [(Some "System", handoff_notice "Refund Agent")]
    ∧ sends tail = [].
Proof.
  intros w.
  assert (Hw : history_is_list w = true) by (vm_compute; reflexivity).
  exact (turn_sends_placeholder_then_handoff_notices
           (hands_off_then_answers "k" "done") "refund?" w Hw).
Defined.

(** ** The runner is called once *)

(** A turn calls the runner exactly once. *)
Theorem turn_calls_runner_exactly_once (runner : Runner) (text : string) (w : World) :
  history_is_list w = true →
  ∃ new,
    trace (fst (main runner text w)) = trace w ++ new
    ∧ filter (λ ev, is_runner_call ev = true) new =
        [EvRunnerCall (current_agent w)
           (stored_history w ++ [{| role := user; content := text |}]) (current_config w)].
Proof.
  intros Hw. destruct (main_run runner text w Hw) as (ms & evs & -> & Hevs).
  pose proof (notices_no_runner_call _ _ Hevs) as Hn.
  unfold turn_end. cbn [fst].
  destruct (final_output _); cbn [trace]; eexists; (split; [reflexivity|]);
    rewrite !filter_app, Hn; reflexivity.
Qed.

Lemma turn_calls_runner_witness :
  let w := serve "k" [ChatStart] empty_world in
  ∃ new,
    trace (fst (main (hands_off_then_answers "k" "done") "refund?" w)) = trace w ++ new
    ∧ filter (λ ev, is_runner_call ev = true) new =
        [EvRunnerCall (VAgent (triage_agent "k")) [user_entry "refund?"] (VConfig (config "k"))].
Proof.
  intros w.
  assert (Hw : history_is_list w = true) by (vm_compute; reflexivity).
  exact (turn_calls_runner_exactly_once (hands_off_then_answers "k" "done") "refund?" w Hw).
Defined.

(** ** Writes of a turn *)



(** A turn changes at most one list object, the one it appends the user
    entry to: every other list object keeps its items. *)
Theorem turn_changes_one_list_object (runner : Runner) (text : string) (w : World) :
  history_is_list w = true →
  ∃ l new,
    let w' := fst (main runner text w) in
    trace w' = trace w ++ new
    ∧ EvAppend l {| role := user; content := text |} ∈ new
    ∧ ∀ l', l' ≠ l → heap w' !! l' = heap w !! l'.
Proof.
  intros Hw. destruct (main_run runner text w Hw) as (ms & evs & -> & Hevs).
  exists (history_loc w). unfold turn_end. cbn [fst].
  destruct (final_output _); cbn [trace heap]; eexists;
    (split_and!; [reflexivity | set_solver | by intros l' Hl'; rewrite lookup_insert_ne]).
Qed.

Lemma turn_changes_one_list_object_witness :
  let w := serve "k" [ChatStart; OnMessage "hi" (answers "hello"); ChatStart] empty_world in
  ∃ l new,
    let w' := fst (main (answers "ok") "again" w) in
    trace w' = trace w ++ new
    ∧ EvAppend l (user_entry "again") ∈ new
    ∧ ∀ l', l' ≠ l → heap w' !! l' = heap w !! l'.
Proof.
  intros w.
  assert (Hw : history_is_list w = true) by (vm_compute; reflexivity).
  exact (turn_changes_one_list_object (answers "ok") "again" w Hw).
Defined.

(** ** Frame of session start *)

(** Session start writes only the three session entries, keeps every
    existing list object as it is (the earlier history list is replaced
    in the session, not emptied), keeps the existing message objects, and
    returns normally. *)
Theorem start_frame (key : string) (w : World) :
  let w' := fst (start key w) in
  delete "agent" (delete "config" (delete "chat_history" (session w'))) =
    delete "agent" (delete "config" (delete "chat_history" (session w)))
  ∧ heap w ⊆ heap w'
  ∧ messages w ⊆ messages w'
  ∧ snd (start key w) = Return tt.
Proof.
  cbn zeta. rewrite start_run. cbn [fst snd session heap messages].
  split_and!; [|apply insert_subseteq, not_elem_of_dom, is_fresh
               |apply insert_subseteq, fresh_message_id|done].
  rewrite delete_insert_eq.
  rewrite (delete_insert_ne _ "chat_history" "config") by done.
  rewrite delete_insert_eq.
  rewrite (delete_insert_ne _ "chat_history" "agent") by done.
  rewrite (delete_insert_ne _ "config" "agent") by done.
  by rewrite delete_insert_eq.
Qed.

(** * Invariants of a session *)

Lemma replies_follow_user_app prev h h' :
  replies_follow_user prev h = true →
  (∀ p, replies_follow_user p h' = true) →
  replies_follow_user prev (h ++ h') = true.
Proof.
  revert prev. induction h as [|[[] c] h IH]; intros prev Hh Hh'; cbn in *.
  - apply Hh'.
  - by apply IH.
  - apply andb_true_iff in Hh as [-> Hh]. cbn. by apply IH.
Qed.

(** The stored history after a turn, in all cases. *)
Lemma main_history_cases runner text w :
  history_is_list w = true →
  match final_output (turn_result runner text w) with
  | inl out =>
      stored_history (fst (main runner text w)) =
        stored_history w ++ [user_entry text; assistant_entry out]
  | inr _ =>
      stored_history (fst (main runner text w)) = stored_history w ++ [user_entry text]
      ∨ stored_history (fst (main runner text w)) = stored_history w
  end.
Proof.
  intros Hw. destruct (final_output _) as [out|err] eqn:E.
  - by apply main_history_success.
  - destruct (main_run runner text w Hw) as (ms & evs & -> & _).
    unfold turn_end. rewrite E. cbn [fst].
    unfold stored_history, history_loc. cbn [session heap].
    destruct (session w !! "chat_history") as [[| | |l]|]; cbn; auto.
    destruct (heap w !! l) as [[|e h]|] eqn:Hl; cbn.
    + right. rewrite lookup_insert_ne, Hl; [done|].
      intros <-. pose proof (is_fresh (dom (heap w))) as Hf.
      apply not_elem_of_dom in Hf. congruence.
    + left. by rewrite lookup_insert_eq.
    + destruct (decide (fresh (dom (heap w)) = l)) as [<-|Hne].
      * left. by rewrite lookup_insert_eq.
      * right. by rewrite lookup_insert_ne, Hl.
Qed.

Lemma main_replies_follow_user runner text w :
  history_is_list w = true →
  replies_follow_user false (stored_history w) = true →
  replies_follow_user false (stored_history (fst (main runner text w))) = true.
Proof.
  intros Hw Hr. pose proof (main_history_cases runner text w Hw) as Hc.
  destruct (final_output _).
  - rewrite Hc. by apply replies_follow_user_app.
  - destruct Hc as [-> | ->]; [|done]. by apply replies_follow_user_app.
Qed.

Lemma serve_replies_follow_user key evs w :
  history_is_list w = true →
  replies_follow_user false (stored_history w) = true →
  replies_follow_user false (stored_history (serve key evs w)) = true.
Proof.
  revert w. induction evs as [|[|text runner] evs IH]; intros w Hw Hr; cbn [serve handle].
  - done.
  - apply IH; [apply start_history_is_list|].
    pose proof (start_session_state key w) as Hs. injection Hs as _ _ ->. done.
  - apply IH; [by apply main_history_is_list | by apply main_replies_follow_user].
Qed.

(** In every state a session reaches, whatever mix of successful and
    failed turns and session starts led to it, each assistant entry of
    the stored history directly follows a user entry (so the history
    never starts with an assistant entry and never has two in a row). *)
Theorem reachable_history_replies_follow_user (key : string) (evs : list UiEvent) :
  replies_follow_user false (stored_history (serve key evs empty_world)) = true.
Proof. by apply serve_replies_follow_user. Qed.

(** After a session start, a run of turns whose runner calls all succeed
    leaves in the stored history exactly one user entry and one assistant
    entry per turn, in turn order, the user entries carrying the message
    texts; whatever the session held before the start is gone. *)
Theorem successful_turns_after_start_history
    (key : string) (turns : list UiEvent) (w : World) :
  Forall always_answers turns →
  ∃ outs,
    length outs = length turns
    ∧ stored_history (serve key (ChatStart :: turns) w) =
        concat (zip_with (λ ev out, [user_entry (message_text ev); assistant_entry out])
                  turns outs).
Proof.
  intros Ht. cbn [serve handle].
  pose proof (start_history_is_list key w) as Hw.
  pose proof (start_session_state key w) as Hs. injection Hs as _ _ H0.
  revert Hw H0. generalize (fst (start key w)). clear w.
  assert (G : ∀ w, history_is_list w = true →
            ∃ outs, length outs = length turns
              ∧ stored_history (serve key turns w) =
                  stored_history w ++
                  concat (zip_with (λ ev out, [user_entry (message_text ev); assistant_entry out])
                            turns outs)).
  { induction Ht as [|[|text runner] turns Hev _ IH]; intros w Hw; [|done|].
    - exists []. cbn. by rewrite app_nil_r.
    - cbn [serve handle].
      destruct (Hev (current_agent w) (stored_history w ++ [user_entry text])
                  (current_config w)) as (out & E).
      destruct (IH _ (main_history_is_list runner text w Hw)) as (outs & Hl & ->).
      exists (out :: outs). split; [cbn; by rewrite Hl|].
      rewrite (main_history_success runner text w out Hw E).
      cbn. by rewrite <- app_assoc. }
  intros w Hw H0. destruct (G w Hw) as (outs & Hl & ->). exists outs. by rewrite H0.
Qed.

Lemma successful_turns_after_start_witness :
  ∃ outs,
    length outs = 2
    ∧ stored_history
        (serve "k" [ChatStart; OnMessage "q" (answers "a"); OnMessage "c" (answers "b")]
           (serve "k" [ChatStart; OnMessage "old" (answers "x")] empty_world)) =
      concat (zip_with (λ ev out, [user_entry (message_text ev); assistant_entry out])
                [OnMessage "q" (answers "a"); OnMessage "c" (answers "b")] outs).
Proof.
  apply (successful_turns_after_start_history "k"
           [OnMessage "q" (answers "a"); OnMessage "c" (answers "b")]).
  repeat constructor; intros; eexists; reflexivity.
Defined.

(** ** Messages already on the UI *)

Lemma show_spared D evs ui id :
  id ∈ D → Forall (spares D) evs → foldl show ui evs !! id = ui !! id.
Proof.
  intros Hid H. revert ui. induction H as [|ev evs Hev _ IH]; intros ui; cbn [foldl]; [done|].
  rewrite IH. destruct ev as [id' a c|id' c| | | |]; cbn in *; try done.
  - apply lookup_insert_ne. set_solver.
  - apply lookup_alter_ne. set_solver.
Qed.

#[local] Set Warnings "-clear-no-such-hyp".

Lemma dom_foldl_show evs ui :
  dom (foldl show ui evs) = dom ui ∪ list_to_set (send_ids evs).
Proof.
  revert ui. induction evs as [|ev evs IH]; intros ui; cbn [foldl].
  - cbn. set_solver.
  - rewrite IH. destruct ev as [id' a c|id' c| | | |]; cbn [show send_ids omap list_omap];
      rewrite ?dom_insert_L, ?dom_alter_L; cbn; set_solver.
Qed.

Lemma is_notice_spares D ev : is_notice D ev → spares D ev.
Proof. by destruct ev as [id [a|] c| | | | |]. Qed.

(** The events a handler adds spare the messages that exist when it
    starts, and the messages it sends exist when it ends. *)
Lemma handle_new_events key ev w :
  history_is_list w = true →
  ∃ new,
    trace (fst (handle key ev w)) = trace w ++ new
    ∧ Forall (spares (dom (messages w))) new
    ∧ (∀ id, id ∈ send_ids new → id ∈ dom (messages (fst (handle key ev w))))
    ∧ dom (messages w) ⊆ dom (messages (fst (handle key ev w))).
Proof.
  intros Hw. destruct ev as [|text runner]; cbn [handle].
  - rewrite start_run. cbn [fst trace messages]. eexists. split_and!; [reflexivity| | |].
    + repeat constructor. apply is_fresh.
    + intros id. cbn. rewrite list_elem_of_singleton. intros ->.
      rewrite dom_insert_L. set_solver.
    + rewrite dom_insert_L. set_solver.
  - destruct (main_run_sends runner text w Hw)
      as (ms & evs & -> & Hevs & Hdom & Hmid & Hids & _).
    assert (Hsp : Forall (spares (dom (messages w))) evs).
    { eapply Forall_impl; [exact Hevs|]. intros ev Hev.
      apply is_notice_spares. eapply is_notice_mono; [|exact Hev]. set_solver. }
    pose proof (is_fresh (dom (messages w))) as Hf.
    unfold turn_end. cbn [fst].
    destruct (final_output _); cbn [trace messages]; eexists;
      (split_and!; [reflexivity| | |exact Hdom]).
    + apply Forall_app. split; [by repeat constructor|].
      apply Forall_app. split; [done|]. by repeat constructor.
    + intros id. unfold send_ids. rewrite !omap_app, !elem_of_app. cbn.
      rewrite list_elem_of_singleton, elem_of_nil. intros [->|[?|[]]]; [done|by apply Hids].
    + apply Forall_app. split; [by repeat constructor|].
      apply Forall_app. split; [done|]. by repeat constructor.
    + intros id. unfold send_ids. rewrite !omap_app, !elem_of_app. cbn.
      rewrite list_elem_of_singleton, elem_of_nil. intros [->|[?|[]]]; [done|by apply Hids].
Qed.

Lemma handle_ui_known key ev w :
  history_is_list w = true → ui_known w → ui_known (fst (handle key ev w)).
Proof.
  intros Hw Hk. destruct (handle_new_events key ev w Hw) as (new & E & _ & Hids & Hdom).
  unfold ui_known in *. rewrite E, displayed_app, dom_foldl_show.
  apply union_least; [set_solver|].
  intros id Hid. apply Hids. by apply elem_of_list_to_set in Hid.
Qed.

Lemma handle_displayed_kept key ev w id c :
  history_is_list w = true → ui_known w →
  displayed (trace w) !! id = Some c →
  displayed (trace (fst (handle key ev w))) !! id = Some c.
Proof.
  intros Hw Hk Hd. destruct (handle_new_events key ev w Hw) as (new & E & Hsp & _ & _).
  rewrite E, displayed_app. erewrite show_spared; [done| |exact Hsp].
  apply Hk, elem_of_dom. by eexists.
Qed.

Lemma handle_history_is_list key ev w :
  history_is_list w = true → history_is_list (fst (handle key ev w)) = true.
Proof.
  destruct ev; cbn [handle]; [intros _; apply start_history_is_list|apply main_history_is_list].
Qed.

Lemma serve_ui_known key evs w :
  history_is_list w = true → ui_known w → ui_known (serve key evs w).
Proof.
  revert w. induction evs as [|ev evs IH]; intros w Hw Hk; cbn [serve]; [done|].
  apply IH; [by apply handle_history_is_list | by apply handle_ui_known].
Qed.

Lemma serve_displayed_kept key evs w id c :
  history_is_list w = true → ui_known w →
  displayed (trace w) !! id = Some c →
  displayed (trace (serve key evs w)) !! id = Some c.
Proof.
  revert w. induction evs as [|ev evs IH]; intros w Hw Hk Hd; cbn [serve]; [done|].
  apply IH; [by apply handle_history_is_list | by apply handle_ui_known
            | by apply handle_displayed_kept].
Qed.

(** What the UI shows under a message id is final once the handler that
    sent it has ended: no later session start or turn sends or updates a
    message with that id (each handler only touches messages it has
    created itself). *)
Theorem displayed_messages_are_never_changed_later
    (key : string) (earlier later : list UiEvent) (id : nat) (c : string) :
  displayed (trace (serve key earlier empty_world)) !! id = Some c →
  displayed (trace (serve key (earlier ++ later) empty_world)) !! id = Some c.
Proof.
  intros Hd. rewrite serve_app. apply serve_displayed_kept; [| |done].
  - by apply serve_history_is_list.
  - apply serve_ui_known; [done|]. unfold ui_known. cbn. set_solver.
Qed.

Lemma displayed_messages_witness :
  displayed
    (trace (serve "k" ([ChatStart; OnMessage "hi" (answers "hello")]
                       ++ [OnMessage "again" (fails "boom"); ChatStart]) empty_world))
    !! 1 = Some "hello".
Proof.
  apply (displayed_messages_are_never_changed_later "k"
           [ChatStart; OnMessage "hi" (answers "hello")]
           [OnMessage "again" (fails "boom"); ChatStart] 1 "hello").
  vm_compute. reflexivity.
Defined.

(** * From the environment to the session *)

(** The key read from the environment is the key of the client that
    session start stores: the run configuration's model and provider use
    it, the three agents share the configuration's model, and tracing is
    disabled. *)
Theorem api_key_reaches_session_config
    (environ : gmap string string) (key : string) (w : World) :
  getenv environ "GEMINI_API_KEY" = Some key →
  key ≠ EmptyString →
  ∃ cfg triage,
    let w' := fst (app environ [ChatStart] w) in
    current_config w' = VConfig cfg
    ∧ current_agent w' = VAgent triage
    ∧ api_key (model_provider cfg) = key
    ∧ api_key (openai_client (rc_model cfg)) = key
    ∧ tracing_disabled cfg = true
    ∧ model triage = rc_model cfg
    ∧ Forall (λ h, model (handoff_agent h) = rc_model cfg) (handoffs triage).
Proof.
  intros E Hkey. unfold app, module_body. rewrite E.
  destruct key as [|c key]; [done|]. cbn [not_key default from_option id serve handle fst].
  pose proof (start_session_state (String c key) w) as Hs. injection Hs as Ha Hc _.
  exists (config (String c key)), (triage_agent (String c key)).
  split_and!; [done..|]. by repeat constructor.
Qed.

Lemma api_key_reaches_session_config_witness :
  ∃ cfg triage,
    let w' := fst (app (environ_with "secret") [ChatStart] empty_world) in
    current_config w' = VConfig cfg
    ∧ current_agent w' = VAgent triage
    ∧ api_key (model_provider cfg) = "secret"
    ∧ api_key (openai_client (rc_model cfg)) = "secret"
    ∧ tracing_disabled cfg = true
    ∧ model triage = rc_model cfg
    ∧ Forall (λ h, model (handoff_agent h) = rc_model cfg) (handoffs triage).
Proof.
  apply (api_key_reaches_session_config (environ_with "secret") "secret" empty_world).
  - reflexivity.
  - discriminate.
Defined.

(** * A message before any session start *)

(** When the session holds none of the three entries, the handler does
    not stop: it calls the runner with [None] for the agent and for the
    configuration and with the one-entry history; a successful call
    creates ["chat_history"] with the two entries of the turn, a failed
    call leaves the session without any entry. *)
Theorem message_before_session_start (runner : Runner) (text : string) (w : World) :
  session w = ∅ →
  let w' := fst (main runner text w) in
  (∃ new, trace w' = trace w ++ new
          ∧ EvRunnerCall VNone [{| role := user; content := text |}] VNone ∈ new)
  ∧ match final_output (runner VNone [{| role := user; content := text |}] VNone) with
    | inl out =>
        stored_history w' =
          [{| role := user; content := text |}; {| role := assistant; content := out |}]
        ∧ dom (session w') = {[ "chat_history" ]}
    | inr _ => session w' = ∅
    end.
Proof.
  intros E. cbn zeta.
  assert (Hw : history_is_list w = true) by (unfold history_is_list; by rewrite E).
  assert (Ha : current_agent w = VNone) by (unfold current_agent; by rewrite E).
  assert (Hc : current_config w = VNone) by (unfold current_config; by rewrite E).
  assert (Hh : stored_history w = []) by (unfold stored_history; by rewrite E).
  destruct (main_run runner text w Hw) as (ms & evs & -> & _). cbn [fst].
  change {| role := user; content := text |} with (user_entry text).
  unfold turn_end, turn_result. rewrite Ha, Hc, Hh. cbn [app].
  destruct (final_output _) as [out|err]; cbn [trace session].
  - split; [eexists; split; [reflexivity|set_solver]|].
    split.
    + unfold stored_history. cbn [session heap]. rewrite lookup_insert_eq. cbn.
      by rewrite lookup_insert_eq.
    + rewrite E, dom_insert_L, dom_empty_L. set_solver.
  - split; [eexists; split; [reflexivity|set_solver]|done].
Qed.

Lemma message_before_session_start_witness :
  let w' := fst (main (fails "boom") "hi" empty_world) in
  (∃ new, trace w' = trace empty_world ++ new
          ∧ EvRunnerCall VNone [user_entry "hi"] VNone ∈ new)
  ∧ session w' = ∅.
Proof.
  exact (message_before_session_start (fails "boom") "hi" empty_world eq_refl).
Defined.
